(** * echo-models: the shared data-model declarations of the ECHO app

    The package exports, per entity (organization, user, question,
    response), TypeScript shape declarations and constant tables; the
    compiled modules under [dist/] hold the same tables as plain
    JavaScript.  One module below per source file.

    Constant tables are embedded as they are at run time: string literals
    as [string], integer number literals as [Z], array literals as [list],
    object literals of a fixed shape as records, and object literals that
    consumers index by a discriminant (plan tier, role, flag name) as
    [gmap string _] holding the literal's own properties.  Regular
    expression literals are embedded as syntax trees and run by a
    backtracking matcher.  Shape declarations are embedded as data (field
    name, optionality, declared type) together with the conformance of a
    run-time value to a declared type. *)

From Stdlib Require Import ZArith NArith Ascii String.
From stdpp Require Import gmap strings list fin_maps.

#[local] Open Scope string_scope.
#[local] Open Scope Z_scope.

(** ** Run-time values *)

(** The data an entity or a table holds.  Numbers are integers, as all
    number literals of the package are. *)
#[warnings="-register-all"] Inductive value : Type :=
  | VUndefined
  | VNull
  | VBool (b : bool)
  | VNum (z : Z)
  | VStr (s : string)
  | VArr (l : list value)
  | VObj (m : gmap string value).

(** An object literal [{ k1: v1, ..., kn: vn }] with distinct keys: the map
    of its own properties. *)
Definition object_literal {A : Type} (props : list (string * A)) : gmap string A :=
  list_to_map props.

(** ** Regular expression literals

    The two pattern constants are RegExp literals without flags.  They are
    embedded as syntax trees and run the way the language runs them: a
    pattern compiles to a backtracking matcher that takes the index it
    starts from and a continuation for the rest of the pattern, and
    [test] tries every start index from 0 on.  Strings are sequences of
    UTF-16 code units. *)

Module RegExp.

#[local] Open Scope N_scope.

(** The code unit of an ASCII character. *)
Definition cu (a : ascii) : N := N_of_ascii a.

(** The code units of a string literal whose characters are all ASCII. *)
Definition code_units (s : string) : list N := cu <$> list_ascii_of_string s.

(** The members of a bracketed character class. *)
Inductive ClassAtom : Type :=
  | ClassChar (c : N)
  | ClassRange (lo hi : N)
  | ClassSpace.

Inductive Term : Type :=
  | AssertStart
  | AssertEnd
  | Char (c : N)
  | CharClass (negated : bool) (atoms : list ClassAtom)
  | Star (t : Term)
  | Plus (t : Term)
  | Seq (t1 t2 : Term).

(** The characters [\s] stands for: white space and line terminators. *)
Definition is_space (ch : N) : bool :=
  bool_decide (ch ∈ [0x0009; 0x000A; 0x000B; 0x000C; 0x000D; 0x0020; 0x00A0;
                     0x1680; 0x2028; 0x2029; 0x202F; 0x205F; 0x3000; 0xFEFF])
  || (0x2000 <=? ch) && (ch <=? 0x200A).

Definition atom_mem (ch : N) (a : ClassAtom) : bool :=
  match a with
  | ClassChar c => ch =? c
  | ClassRange lo hi => (lo <=? ch) && (ch <=? hi)
  | ClassSpace => is_space ch
  end.

Definition class_mem (atoms : list ClassAtom) (ch : N) : bool :=
  existsb (atom_mem ch) atoms.

(** A match ends at an index of the input or fails.  [OutOfFuel] is the
    answer of a repetition whose iteration bound was too small; the
    bound [test] uses never is ([RegExp_test_total]). *)
Inductive MatchResult : Type :=
  | Failure
  | Match (endIndex : nat)
  | OutOfFuel.

Section Matcher.

Variable Input : list N.

Definition Continuation : Type := nat -> MatchResult.
Definition Matcher : Type := nat -> Continuation -> MatchResult.

(** [c] answers at every index from [x] to the end of the input. *)
Definition answers_from (x : nat) (c : Continuation) : Prop :=
  forall y, (x <= y <= length Input)%nat -> c y <> OutOfFuel.

(** [m] answers wherever its continuation does. *)
Definition total_matcher (m : Matcher) : Prop :=
  forall x c, (x <= length Input)%nat -> answers_from x c -> m x c <> OutOfFuel.

(** One character of the input, in the set or (when [invert]) out of it. *)
Definition CharacterSetMatcher (A : N -> bool) (invert : bool) : Matcher :=
  fun x c =>
    match Input !! x with
    | None => Failure
    | Some ch => if eqb invert (A ch) then Failure else c (S x)
    end.

(** Greedy repetition of [m], zero or more times.  An iteration that
    consumes nothing is rejected, so every iteration advances and
    [fuel] bounds the number of iterations. *)
Fixpoint RepeatMatcher (m : Matcher) (fuel : nat) (x : nat) (c : Continuation)
  : MatchResult :=
  match fuel with
  | O => OutOfFuel
  | S fuel' =>
      let d : Continuation := fun y =>
        if (y =? x)%nat then Failure else RepeatMatcher m fuel' y c in
      match m x d with
      | Failure => c x
      | z => z
      end
  end.

(** The iterations left from index [x]: one per remaining code unit, and
    the last, failing, attempt. *)
Definition iterations (x : nat) : nat := S (length Input - x).

Fixpoint compile (t : Term) : Matcher :=
  fun x c =>
    match t with
    | AssertStart => if (x =? 0)%nat then c x else Failure
    | AssertEnd => if (x =? length Input)%nat then c x else Failure
    | Char ch => CharacterSetMatcher (N.eqb ch) false x c
    | CharClass negated atoms => CharacterSetMatcher (class_mem atoms) negated x c
    | Star t' => RepeatMatcher (compile t') (iterations x) x c
    | Plus t' =>
        compile t' x (fun y => RepeatMatcher (compile t') (iterations y) y c)
    | Seq t1 t2 => compile t1 x (fun y => compile t2 y c)
    end.

(** The search of [exec] without the global or sticky flag: the match
    is tried from [lastIndex], then from the next index, until it
    succeeds or [lastIndex] exceeds the input's length; [n] counts the
    start indices left. *)
Fixpoint search (t : Term) (n : nat) (lastIndex : nat) : MatchResult :=
  match n with
  | O => Failure
  | S n' =>
      match compile t lastIndex Match with
      | Failure => search t n' (S lastIndex)
      | z => z
      end
  end.

Definition RegExpBuiltinExec (t : Term) : MatchResult :=
  search t (S (length Input)) 0.

End Matcher.

(** [pattern.test(input)]; [None] only if a repetition ran out of fuel. *)
Definition RegExp_test (t : Term) (input : list N) : option bool :=
  match RegExpBuiltinExec input t with
  | Failure => Some false
  | Match _ => Some true
  | OutOfFuel => None
  end.

End RegExp.

(** ** What a pattern matches

    The declarative reading of a pattern, against which the matcher is
    checked: [matches Input t x y] says that [t] matches the code units of
    [Input] from index [x] up to, not including, index [y].  As in the
    matcher, a repetition is made of iterations that consume something. *)

Module PatternLanguage.
Import RegExp.

(** Zero or more steps of [R], each one advancing. *)
Inductive iterated (R : nat -> nat -> Prop) : nat -> nat -> Prop :=
  | iterated_done (x : nat) : iterated R x x
  | iterated_step (x y z : nat) :
      R x y -> x <> y -> iterated R y z -> iterated R x z.

Section Matches.

Variable Input : list N.

Fixpoint matches (t : Term) (x y : nat) : Prop :=
  match t with
  | AssertStart => x = 0%nat /\ y = x
  | AssertEnd => x = length Input /\ y = x
  | Char ch => Input !! x = Some ch /\ y = S x
  | CharClass negated atoms =>
      exists ch, Input !! x = Some ch /\ class_mem atoms ch = negb negated /\ y = S x
  | Star t' => iterated (matches t') x y
  | Plus t' => exists z, matches t' x z /\ iterated (matches t') z y
  | Seq t1 t2 => exists z, matches t1 x z /\ matches t2 z y
  end.

End Matches.

End PatternLanguage.

(** ** Shape declarations

    An interface declaration lists fields; a field has a name, is required
    or optional ([name?:]), and has a declared type.  Conformance is the
    structural one of the language under strict null checks, which the
    declarations are written for (they spell [| null] out): a required
    field is present with a value of its type, an optional field is absent,
    [undefined], or a value of its type, and further properties are
    allowed. *)

Module TypeScript.

#[warnings="-register-all"] Inductive ts_type : Type :=
  | TString
  | TNumber
  | TBoolean
  | TNull
  | TUndefined
  | TAny
  | TLiteral (s : string)
  | TArray (t : ts_type)
  | TUnion (ts : list ts_type)
  | TRecord (t : ts_type).

Record field : Type := {
  name : string;
  optional : bool;
  type : ts_type
}.

Definition interface : Type := list field.

Definition field_names (i : interface) : list string := name <$> i.

(** The declaration of the field called [n], if the interface has one. *)
Definition declared (i : interface) (n : string) : option field :=
  List.find (fun f => bool_decide (name f = n)) i.

Fixpoint has_type (t : ts_type) (v : value) : bool :=
  match t, v with
  | TString, VStr _ => true
  | TNumber, VNum _ => true
  | TBoolean, VBool _ => true
  | TNull, VNull => true
  | TUndefined, VUndefined => true
  | TAny, _ => true
  | TLiteral s, VStr s' => bool_decide (s' = s)
  | TArray t', VArr l => forallb (has_type t') l
  | TUnion ts, _ => existsb (fun t' => has_type t' v) ts
  | TRecord t', VObj m => forallb (has_type t') (map_to_list m).*2
  | _, _ => false
  end.

Definition field_ok (o : gmap string value) (f : field) : bool :=
  match o !! name f with
  | Some VUndefined => optional f || has_type (type f) VUndefined
  | Some v => has_type (type f) v
  | None => optional f
  end.

Definition conforms (i : interface) (o : gmap string value) : bool :=
  forallb (field_ok o) i.

End TypeScript.

(** ** Shapes with object members

    [ts_type] has no object types.  A declaration whose fields are objects
    themselves (an interface, an inline object type, [Partial] of an
    interface) is a [shape]: a member has a name, is optional or not, and
    has a shape of its own.  Conformance of a member is that of a field. *)

Module TypeScriptObjects.
Import TypeScript.

#[warnings="-register-all"] Inductive shape : Type :=
  | Plain (t : ts_type)
  | Object (members : list (string * (bool * shape))).



Definition member_names (s : shape) : list string :=
  match s with
  | Plain _ => []
  | Object members => members.*1
  end.





End TypeScriptObjects.

(** ** organization.ts *)

Module Organization.
Import RegExp.

Record Branding : Type := {
  logo_url : option string;
  primary_color : option string;
  secondary_color : option string
}.

Record OrganizationSettings : Type := {
  allow_anonymous_responses : bool;
  default_timezone : string;
  max_questions : Z;
  max_users : Z;
  analytics_enabled : bool;
  branding : option Branding
}.

Definition ORGANIZATION_PLANS : list string := ["free"; "pro"; "enterprise"].

Record OrganizationDefaults : Type := {
  plan : string;
  settings : OrganizationSettings;
  metadata : gmap string value
}.

Definition ORGANIZATION_DEFAULTS : OrganizationDefaults := {|
  plan := "free";
  settings := {|
    allow_anonymous_responses := true;
    default_timezone := "UTC";
    max_questions := 10;
    max_users := 5;
    analytics_enabled := false;
    branding := None
  |};
  metadata := object_literal []
|}.

(** The record every entry of [PLAN_LIMITS] is; its fields carry the
    prefix [pl_] to keep them apart from those of [OrganizationSettings]. *)
Record PlanLimits : Type := {
  pl_max_questions : Z;
  pl_max_users : Z;
  pl_analytics_enabled : bool;
  pl_custom_branding : bool
}.

Definition PLAN_LIMITS : gmap string PlanLimits := object_literal [
  ("free", {|
    pl_max_questions := 10;
    pl_max_users := 5;
    pl_analytics_enabled := false;
    pl_custom_branding := false |});
  ("pro", {|
    pl_max_questions := 100;
    pl_max_users := 50;
    pl_analytics_enabled := true;
    pl_custom_branding := true |});
  ("enterprise", {|
    pl_max_questions := -1;
    pl_max_users := -1;
    pl_analytics_enabled := true;
    pl_custom_branding := true |})
].

Record OrganizationValidation : Type := {
  max_name_length : Z;
  max_slug_length : Z;
  min_slug_length : Z;
  max_metadata_size : Z;
  slug_pattern : Term
}.

(** [slug_pattern] is the literal [/^[a-z0-9-]+$/]. *)
Definition ORGANIZATION_VALIDATION : OrganizationValidation := {|
  max_name_length := 100;
  max_slug_length := 50;
  min_slug_length := 3;
  max_metadata_size := 2048;
  slug_pattern :=
    Seq AssertStart
      (Seq (Plus (CharClass false
                    [ClassRange (cu "a") (cu "z");
                     ClassRange (cu "0") (cu "9");
                     ClassChar (cu "-")]))
           AssertEnd)
|}.

(** A quota [b] allows at least what a quota [a] allows; [-1] stands for
    unlimited, as the table's comments say. *)
Definition quota_le (a b : Z) : Prop :=
  b = -1 \/ (a <> -1 /\ a <= b).

Import TypeScript.

(** The type alias [OrganizationPlan]. *)
Definition OrganizationPlan : ts_type :=
  TUnion [TLiteral "free"; TLiteral "pro"; TLiteral "enterprise"].


Import TypeScriptObjects.









End Organization.

(** ** user.ts *)

Module User.
Import RegExp.

Record UserPreferences : Type := {
  timezone : string;
  email_notifications : bool;
  push_notifications : bool;
  language : string;
  show_anonymous_responses : bool;
  theme : string
}.

Definition USER_ROLES : list string := ["admin"; "user"].

Definition USER_STATUSES : list string :=
  ["active"; "suspended"; "pending"; "inactive"].

Record UserDefaults : Type := {
  role : string;
  status : string;
  preferences : UserPreferences;
  metadata : gmap string value
}.

Definition USER_DEFAULTS : UserDefaults := {|
  role := "user";
  status := "active";
  preferences := {|
    timezone := "UTC";
    email_notifications := true;
    push_notifications := false;
    language := "en";
    show_anonymous_responses := false;
    theme := "auto"
  |};
  metadata := object_literal []
|}.

Record UserValidation : Type := {
  max_name_length : Z;
  max_email_length : Z;
  email_pattern : Term;
  max_metadata_size : Z;
  min_password_length : Z;
  max_password_length : Z
}.

(** The class [[^\s@]] of the email pattern. *)
Definition not_space_or_at : Term :=
  CharClass true [ClassSpace; ClassChar (cu "@")].

(** The code units the class [[^\s@]] admits. *)
Definition is_not_space_or_at (ch : N) : Prop :=
  is_space ch = false /\ ch <> cu "@".

(** An input of the form [u@d.t] whose three parts are non-empty and made
    of code units of [[^\s@]]. *)
Definition email_form (input : list N) : Prop :=
  exists u d t : list N,
    input = (u ++ cu "@" :: d ++ cu "." :: t)%list /\
    u <> [] /\ d <> [] /\ t <> [] /\
    Forall is_not_space_or_at u /\ Forall is_not_space_or_at d /\
    Forall is_not_space_or_at t.

(** [email_pattern] is the literal [/^[^\s@]+@[^\s@]+\.[^\s@]+$/]. *)
Definition USER_VALIDATION : UserValidation := {|
  max_name_length := 100;
  max_email_length := 254;
  email_pattern :=
    Seq AssertStart
      (Seq (Plus not_space_or_at)
        (Seq (Char (cu "@"))
          (Seq (Plus not_space_or_at)
            (Seq (Char (cu "."))
              (Seq (Plus not_space_or_at)
                AssertEnd)))));
  max_metadata_size := 1024;
  min_password_length := 8;
  max_password_length := 128
|}.

(** Each entry maps the name of a permission flag to its setting. *)
Definition USER_PERMISSIONS : gmap string (gmap string bool) := object_literal [
  ("admin", object_literal [
    ("can_create_questions", true);
    ("can_edit_questions", true);
    ("can_delete_questions", true);
    ("can_view_analytics", true);
    ("can_manage_users", true);
    ("can_manage_organization", true);
    ("can_export_data", true) ]);
  ("user", object_literal [
    ("can_create_questions", false);
    ("can_edit_questions", false);
    ("can_delete_questions", false);
    ("can_view_analytics", false);
    ("can_manage_users", false);
    ("can_manage_organization", false);
    ("can_export_data", false) ])
].

Import TypeScript.

(** The type alias [UserRole]. *)
Definition UserRole : ts_type := TUnion [TLiteral "admin"; TLiteral "user"].

(** The type alias [UserStatus]. *)
Definition UserStatus : ts_type :=
  TUnion [TLiteral "active"; TLiteral "suspended"; TLiteral "pending";
          TLiteral "inactive"].

(** The interface [UserPreferences], as a shape declaration. *)
Definition UserPreferences_interface : interface := [
  {| name := "timezone"; optional := false; type := TString |};
  {| name := "email_notifications"; optional := false; type := TBoolean |};
  {| name := "push_notifications"; optional := false; type := TBoolean |};
  {| name := "language"; optional := false; type := TString |};
  {| name := "show_anonymous_responses"; optional := false; type := TBoolean |};
  {| name := "theme"; optional := false;
     type := TUnion [TLiteral "light"; TLiteral "dark"; TLiteral "auto"] |}
].

(** The object a [UserPreferences] record stands for. *)
Definition UserPreferences_object (p : UserPreferences) : gmap string value :=
  object_literal [
    ("timezone", VStr (timezone p));
    ("email_notifications", VBool (email_notifications p));
    ("push_notifications", VBool (push_notifications p));
    ("language", VStr (language p));
    ("show_anonymous_responses", VBool (show_anonymous_responses p));
    ("theme", VStr (theme p))
  ].


Import TypeScriptObjects.






End User.

(** ** question.ts *)

Module Question.

Definition QUESTION_TYPES : list string := ["multiple_choice"; "text"; "scale"].

Definition QUESTION_VISIBILITY : list string := ["live"; "draft"; "private"].

(** [asset_url] is [string | null]; the table holds [null], [None] here. *)
Record QuestionDefaults : Type := {
  allow_multiple : bool;
  is_active : bool;
  is_anonymous : bool;
  visibility : string;
  tags : list string;
  asset_url : option string
}.

Definition QUESTION_DEFAULTS : QuestionDefaults := {|
  allow_multiple := false;
  is_active := false;
  is_anonymous := false;
  visibility := "draft";
  tags := [];
  asset_url := None
|}.

Import TypeScript.

(** The type alias [QuestionType]. *)
Definition QuestionType : ts_type :=
  TUnion [TLiteral "multiple_choice"; TLiteral "text"; TLiteral "scale"].

(** The type alias [QuestionVisibility]. *)
Definition QuestionVisibility : ts_type :=
  TUnion [TLiteral "live"; TLiteral "draft"; TLiteral "private"].

(** The interface [Question]. *)
Definition Question : interface := [
  {| name := "id"; optional := false; type := TString |};
  {| name := "organization_id"; optional := false; type := TString |};
  {| name := "text"; optional := false; type := TString |};
  {| name := "options"; optional := false; type := TArray TString |};
  {| name := "type"; optional := false; type := QuestionType |};
  {| name := "allow_multiple"; optional := false; type := TBoolean |};
  {| name := "scheduled_for"; optional := false; type := TString |};
  {| name := "is_active"; optional := false; type := TBoolean |};
  {| name := "is_anonymous"; optional := false; type := TBoolean |};
  {| name := "asset_url"; optional := true; type := TUnion [TString; TNull] |};
  {| name := "created_by"; optional := false; type := TString |};
  {| name := "visibility"; optional := false; type := QuestionVisibility |};
  {| name := "tags"; optional := false; type := TArray TString |};
  {| name := "created_at"; optional := false; type := TString |}
].


Definition CreateQuestionRequest : interface := [
  {| name := "text"; optional := false; type := TString |};
  {| name := "options"; optional := false; type := TArray TString |};
  {| name := "type"; optional := false; type := QuestionType |};
  {| name := "allow_multiple"; optional := true; type := TBoolean |};
  {| name := "is_active"; optional := true; type := TBoolean |};
  {| name := "is_anonymous"; optional := true; type := TBoolean |};
  {| name := "asset_url"; optional := true; type := TString |};
  {| name := "visibility"; optional := true; type := QuestionVisibility |};
  {| name := "tags"; optional := true; type := TArray TString |}
].


(** The object a [QuestionDefaults] record stands for. *)
Definition QuestionDefaults_object (d : QuestionDefaults) : gmap string value :=
  object_literal [
    ("allow_multiple", VBool (allow_multiple d));
    ("is_active", VBool (is_active d));
    ("is_anonymous", VBool (is_anonymous d));
    ("visibility", VStr (visibility d));
    ("tags", VArr (VStr <$> tags d));
    ("asset_url", from_option VStr VNull (asset_url d))
  ].

End Question.

(** ** response.ts *)

Module Response.
Import TypeScript.

(** The interface [Response]. *)
Definition Response : interface := [
  {| name := "id"; optional := false; type := TString |};
  {| name := "organization_id"; optional := false; type := TString |};
  {| name := "question_id"; optional := false; type := TString |};
  {| name := "user_id"; optional := false; type := TUnion [TString; TNull] |};
  {| name := "answer"; optional := false; type := TArray TString |};
  {| name := "text_answer"; optional := true; type := TString |};
  {| name := "submitted_at"; optional := false; type := TString |};
  {| name := "date"; optional := false; type := TString |};
  {| name := "metadata"; optional := true; type := TRecord TAny |}
].

(** The type alias [ResponseStatus]. *)
Definition ResponseStatus : ts_type :=
  TUnion [TLiteral "submitted"; TLiteral "pending"; TLiteral "invalid"].

Definition RESPONSE_STATUSES : list string := ["submitted"; "pending"; "invalid"].

(** [text_answer] is [undefined] in the table. *)
Record ResponseDefaults : Type := {
  metadata : gmap string value;
  text_answer : value
}.

Definition RESPONSE_DEFAULTS : ResponseDefaults := {|
  metadata := object_literal [];
  text_answer := VUndefined
|}.

Record ResponseValidation : Type := {
  max_text_length : Z;
  max_answer_selections : Z;
  max_metadata_size : Z
}.

Definition RESPONSE_VALIDATION : ResponseValidation := {|
  max_text_length := 1000;
  max_answer_selections := 10;
  max_metadata_size := 1024
|}.

(** The object a [ResponseDefaults] record stands for. *)
Definition ResponseDefaults_object (d : ResponseDefaults) : gmap string value :=
  object_literal [
    ("metadata", VObj (metadata d));
    ("text_answer", text_answer d)
  ].

Definition SubmitResponseRequest : interface := [
  {| name := "question_id"; optional := false; type := TString |};
  {| name := "answer"; optional := false; type := TArray TString |};
  {| name := "text_answer"; optional := true; type := TString |};
  {| name := "metadata"; optional := true; type := TRecord TAny |}
].


End Response.

(** ** Sample values *)

Module Samples.

(** A response submitted anonymously: [user_id] is [null], the optional
    fields are left out. *)
Definition anonymous_response : gmap string value := object_literal [
  ("id", VStr "r-1");
  ("organization_id", VStr "org-1");
  ("question_id", VStr "q-1");
  ("user_id", VNull);
  ("answer", VArr [VStr "yes"]);
  ("submitted_at", VStr "2024-05-01T09:30:00Z");
  ("date", VStr "2024-05-01")
].

(** The same response, attributed to a user. *)
Definition attributed_response : gmap string value :=
  <["user_id" := VStr "u-7"]> anonymous_response.

(** The same response with the [user_id] property left out. *)
Definition response_without_user_id : gmap string value :=
  delete "user_id" anonymous_response.


(** A creation request that leaves every optional field out. *)
Definition minimal_question_request : gmap string value := object_literal [
  ("text", VStr "How was the all-hands?");
  ("options", VArr [VStr "good"; VStr "bad"]);
  ("type", VStr "multiple_choice")
].

(** A creation request that sets [tags] to [undefined]. *)
Definition question_request_with_undefined_tags : gmap string value :=
  <["tags" := VUndefined]> minimal_question_request.





End Samples.

(** * Properties *)

Import RegExp PatternLanguage TypeScript TypeScriptObjects.
Import Organization User Question Response Samples.

(** Closes a decidable closed goal by evaluating its decision procedure. *)
Ltac by_evaluation := apply (bool_decide_unpack _); vm_compute; exact I.

(** ** Object literals *)

Lemma dom_object_literal {A : Type} (props : list (string * A)) :
  dom (object_literal props) = list_to_set props.*1.
Proof. unfold object_literal. apply dom_list_to_map_L. Qed.

Lemma object_literal_keys {A : Type} (props : list (string * A)) (k : string) :
  is_Some (object_literal props !! k) <-> k ∈ props.*1.
Proof. rewrite <- elem_of_dom, dom_object_literal. apply elem_of_list_to_set. Qed.

(** ** The matcher always answers *)

Section MatcherFacts.

Variable Input : list N.

Lemma answers_from_later (x y : nat) (c : Continuation) :
  (x <= y)%nat -> answers_from Input x c -> answers_from Input y c.
Proof. intros Hxy Hc z Hz. apply Hc. lia. Qed.

Lemma CharacterSetMatcher_total (A : N -> bool) (invert : bool) :
  total_matcher Input (CharacterSetMatcher Input A invert).
Proof.
  intros x c Hx Hc. unfold CharacterSetMatcher.
  destruct (Input !! x) as [ch|] eqn:Hch; [|discriminate].
  destruct (eqb invert (A ch)); [discriminate|].
  apply Hc. apply lookup_lt_Some in Hch. lia.
Qed.

Lemma RepeatMatcher_total (m : Matcher) :
  total_matcher Input m ->
  forall fuel x c,
    (x <= length Input)%nat -> (length Input - x < fuel)%nat ->
    answers_from Input x c -> RepeatMatcher m fuel x c <> OutOfFuel.
Proof.
  intros Hm fuel. induction fuel as [|fuel IH]; intros x c Hx Hfuel Hc; [lia|].
  cbn [RepeatMatcher].
  destruct (m x _) eqn:Hstep; [apply Hc; lia | discriminate |].
  exfalso. revert Hstep. apply Hm; [exact Hx|].
  intros y Hy. destruct (Nat.eqb_spec y x) as [->|Hne]; [discriminate|].
  apply IH; [lia | lia |]. apply answers_from_later with x; [lia | exact Hc].
Qed.

Lemma compile_total (t : Term) : total_matcher Input (compile Input t).
Proof.
  induction t as [| |ch|negated atoms|t IH|t IH|t1 IH1 t2 IH2];
    intros x c Hx Hc; cbn [compile].
  - destruct (x =? 0)%nat; [apply Hc; lia | discriminate].
  - destruct (x =? length Input)%nat; [apply Hc; lia | discriminate].
  - by apply CharacterSetMatcher_total.
  - by apply CharacterSetMatcher_total.
  - apply RepeatMatcher_total; [exact IH | exact Hx | unfold iterations; lia | exact Hc].
  - apply IH; [exact Hx|]. intros y Hy.
    apply RepeatMatcher_total; [exact IH | lia | unfold iterations; lia |].
    apply answers_from_later with x; [lia | exact Hc].
  - apply IH1; [exact Hx|]. intros y Hy.
    apply IH2; [lia|]. apply answers_from_later with x; [lia | exact Hc].
Qed.

Lemma search_total (t : Term) (n lastIndex : nat) :
  (lastIndex + n <= S (length Input))%nat -> search Input t n lastIndex <> OutOfFuel.
Proof.
  revert lastIndex. induction n as [|n IH]; intros lastIndex Hn; cbn [search];
    [discriminate|].
  destruct (compile Input t lastIndex Match) eqn:Hstep;
    [apply IH; lia | discriminate |].
  exfalso. revert Hstep. apply compile_total; [lia|]. intros y _. discriminate.
Qed.

End MatcherFacts.

(** [test] answers on every pattern and every input: the iteration bound
    of a repetition is never reached. *)
Lemma RegExp_test_total (t : Term) (input : list N) :
  is_Some (RegExp_test t input).
Proof.
  unfold RegExp_test, RegExpBuiltinExec.
  destruct (search input t (S (length input)) 0) eqn:Hs; [by eexists | by eexists |].
  exfalso. revert Hs. apply search_total. lia.
Qed.

(** ** What the slug pattern accepts *)

Section SlugPattern.

Variable Input : list N.
Variable atoms : list ClassAtom.

(** A greedy run over a class, followed by the end of the input: it
    succeeds exactly when every remaining code unit is in the class. *)
Lemma RepeatMatcher_class_to_end (fuel x : nat) :
  (x <= length Input)%nat -> (length Input - x < fuel)%nat ->
  RepeatMatcher (compile Input (CharClass false atoms)) fuel x
    (fun y => compile Input AssertEnd y Match)
  = if forallb (class_mem atoms) (drop x Input)
    then Match (length Input) else Failure.
Proof.
  revert x. induction fuel as [|fuel IH]; intros x Hx Hfuel; [lia|].
  cbn [RepeatMatcher compile]. unfold CharacterSetMatcher.
  destruct (Input !! x) as [ch|] eqn:Hch.
  - pose proof (lookup_lt_Some _ _ _ Hch) as Hlt.
    rewrite (drop_S _ _ _ Hch). cbn [forallb].
    destruct (Nat.eqb_spec x (length Input)) as [Heq|_]; [lia|].
    destruct (class_mem atoms ch); cbn [eqb andb]; [|reflexivity].
    destruct (Nat.eqb_spec (S x) x) as [Heq|_]; [lia|].
    rewrite IH by lia.
    by destruct (forallb _ _).
  - apply lookup_ge_None in Hch.
    rewrite drop_ge by lia. cbn [forallb].
    destruct (Nat.eqb_spec x (length Input)) as [Heq|Hne]; [by rewrite Heq | lia].
Qed.

Lemma search_anchored_later (t : Term) (n lastIndex : nat) :
  (0 < lastIndex)%nat -> search Input (Seq AssertStart t) n lastIndex = Failure.
Proof.
  revert lastIndex. induction n as [|n IH]; intros lastIndex Hpos; [reflexivity|].
  cbn [search compile].
  destruct (Nat.eqb_spec lastIndex 0) as [Heq|_]; [lia|].
  apply IH. lia.
Qed.

End SlugPattern.

(** A pattern of the form [/^[atoms]+$/] accepts exactly the non-empty
    inputs made of code units of the class. *)
Lemma anchored_class_plus_test (atoms : list ClassAtom) (input : list N) :
  RegExp_test (Seq AssertStart (Seq (Plus (CharClass false atoms)) AssertEnd)) input
  = Some (negb (bool_decide (input = [])) && forallb (class_mem atoms) input).
Proof.
  unfold RegExp_test, RegExpBuiltinExec. cbn [search].
  cbn [compile Nat.eqb]. unfold CharacterSetMatcher.
  destruct input as [|ch rest]; [reflexivity|].
  cbn [lookup list_lookup forallb]. change (negb (bool_decide _)) with true.
  destruct (class_mem atoms ch); cbn [eqb andb].
  - match goal with |- context [RepeatMatcher ?m ?f ?x ?c] =>
      change (RepeatMatcher m f x c)
        with (RepeatMatcher (compile (ch :: rest) (CharClass false atoms)) f x
                (fun y => compile (ch :: rest) AssertEnd y Match))
    end.
    rewrite RepeatMatcher_class_to_end by (unfold iterations; cbn [length]; lia).
    change (drop 1 (ch :: rest)) with rest.
    destruct (forallb _ rest); [reflexivity|].
    by rewrite search_anchored_later by lia.
  - by rewrite search_anchored_later by lia.
Qed.

(** The code units [[a-z0-9-]] admits. *)
Lemma slug_class_mem (ch : N) :
  class_mem [ClassRange (cu "a") (cu "z"); ClassRange (cu "0") (cu "9");
             ClassChar (cu "-")] ch
  = bool_decide ((97 <= ch <= 122) \/ (48 <= ch <= 57) \/ ch = 45)%N.
Proof.
  unfold class_mem, existsb, atom_mem.
  change (cu "a") with 97%N. change (cu "z") with 122%N.
  change (cu "0") with 48%N. change (cu "9") with 57%N. change (cu "-") with 45%N.
  destruct (N.leb_spec 97 ch), (N.leb_spec ch 122), (N.leb_spec 48 ch),
    (N.leb_spec ch 57), (N.eqb_spec ch 45); cbn [andb orb];
    symmetry; first [apply bool_decide_eq_true_2 | apply bool_decide_eq_false_2]; lia.
Qed.

(** [ORGANIZATION_VALIDATION.slug_pattern] accepts exactly the non-empty
    strings of lower-case ASCII letters, ASCII digits and hyphens. *)
Lemma slug_pattern_test (input : list N) :
  RegExp_test (slug_pattern ORGANIZATION_VALIDATION) input
  = Some (negb (bool_decide (input = []))
          && forallb (fun ch =>
               bool_decide ((97 <= ch <= 122) \/ (48 <= ch <= 57) \/ ch = 45)%N) input).
Proof.
  cbn [slug_pattern ORGANIZATION_VALIDATION].
  rewrite anchored_class_plus_test. do 2 f_equal.
  induction input as [|ch rest IH]; [reflexivity|].
  cbn [forallb]. by rewrite slug_class_mem, IH.
Qed.

(** X1: [ORGANIZATION_VALIDATION.slug_pattern] accepts exactly the
    non-empty inputs made of the code units of [a] to [z], [0] to [9] and
    [-], and rejects every other input: the empty string, upper-case
    letters, white space and every other character. *)
Theorem slug_pattern_accepts_exactly (input : list N) :
  let slug_unit (ch : N) :=
    ((cu "a" <= ch <= cu "z") \/ (cu "0" <= ch <= cu "9") \/ ch = cu "-")%N in
  (RegExp_test (slug_pattern ORGANIZATION_VALIDATION) input = Some true <->
     input <> [] /\ Forall slug_unit input) /\
  (RegExp_test (slug_pattern ORGANIZATION_VALIDATION) input = Some false <->
     ~ (input <> [] /\ Forall slug_unit input)).
Proof.
  intros slug_unit. rewrite slug_pattern_test.
  assert (Hall : forallb (fun ch =>
                   bool_decide ((97 <= ch <= 122) \/ (48 <= ch <= 57) \/ ch = 45)%N)
                   input = true <-> Forall slug_unit input).
  { rewrite forallb_forall, Forall_forall. unfold slug_unit.
    change (cu "a") with 97%N. change (cu "z") with 122%N.
    change (cu "0") with 48%N. change (cu "9") with 57%N.
    change (cu "-") with 45%N.
    split; intros H ch Hin.
    - apply list_elem_of_In, H in Hin. by apply bool_decide_eq_true in Hin.
    - by apply bool_decide_eq_true, H, list_elem_of_In. }
  assert (Hne : negb (bool_decide (input = [])) = true <-> input <> []).
  { rewrite negb_true_iff, bool_decide_eq_false. done. }
  assert (Htrue : negb (bool_decide (input = [])) &&
                  forallb (fun ch =>
                    bool_decide ((97 <= ch <= 122) \/ (48 <= ch <= 57) \/ ch = 45)%N)
                    input = true <-> input <> [] /\ Forall slug_unit input).
  { by rewrite andb_true_iff, Hne, Hall. }
  rewrite <- Htrue. split.
  - split; congruence.
  - destruct (negb _ && _); split; try congruence; intros H; by destruct H.
Qed.

(** ** Policy and limit tables *)

(** C1: [PLAN_LIMITS] has an entry for each plan tier of
    [ORGANIZATION_PLANS]; the entry of [free] is max_questions = 10,
    max_users = 5, analytics_enabled = false, custom_branding = false; the
    entry of [enterprise] has max_questions = -1 and max_users = -1. *)
Theorem PLAN_LIMITS_documented_entries :
  Forall (fun p => is_Some (PLAN_LIMITS !! p)) ORGANIZATION_PLANS /\
  PLAN_LIMITS !! "free"
    = Some {| pl_max_questions := 10; pl_max_users := 5;
              pl_analytics_enabled := false; pl_custom_branding := false |} /\
  (exists e, PLAN_LIMITS !! "enterprise" = Some e /\
             pl_max_questions e = -1 /\ pl_max_users e = -1).
Proof.
  split; [|split].
  - unfold ORGANIZATION_PLANS. repeat constructor; by eexists.
  - reflexivity.
  - eexists. split; [reflexivity|]. split; reflexivity.
Qed.

(** C7: the own properties of [PLAN_LIMITS] are keyed exactly by the
    values of [ORGANIZATION_PLANS], and those of [USER_PERMISSIONS] exactly
    by the values of [USER_ROLES]: the lookup is defined at every value of
    the enumeration and at no other key. *)
Theorem policy_tables_keyed_by_enumerations :
  (forall p : string, is_Some (PLAN_LIMITS !! p) <-> p ∈ ORGANIZATION_PLANS) /\
  (forall r : string, is_Some (USER_PERMISSIONS !! r) <-> r ∈ USER_ROLES).
Proof.
  split; intros k; unfold PLAN_LIMITS, USER_PERMISSIONS;
    rewrite object_literal_keys; reflexivity.
Qed.

(** C10: the entries of [admin] and [user] in [USER_PERMISSIONS] both have
    exactly the seven permission flags; each flag is true for [admin] and
    false for [user]. *)
Theorem USER_PERMISSIONS_all_or_nothing :
  let flags := ["can_create_questions"; "can_edit_questions";
                "can_delete_questions"; "can_view_analytics";
                "can_manage_users"; "can_manage_organization";
                "can_export_data"] in
  exists admin user : gmap string bool,
    USER_PERMISSIONS !! "admin" = Some admin /\
    USER_PERMISSIONS !! "user" = Some user /\
    length flags = 7%nat /\ NoDup flags /\
    dom admin = list_to_set flags /\
    dom user = list_to_set flags /\
    Forall (fun f => admin !! f = Some true /\ user !! f = Some false) flags.
Proof.
  intros flags. do 2 eexists.
  split; [reflexivity|]. split; [reflexivity|].
  split; [reflexivity|]. split; [by_evaluation|].
  split; [apply dom_object_literal|]. split; [apply dom_object_literal|].
  repeat constructor.
Qed.

(** C9: the default plan is [free], and the default settings carry the
    free plan's max_questions, max_users and analytics_enabled. *)
Theorem ORGANIZATION_DEFAULTS_agree_with_free_plan :
  plan ORGANIZATION_DEFAULTS = "free" /\
  exists free,
    PLAN_LIMITS !! plan ORGANIZATION_DEFAULTS = Some free /\
    max_questions (settings ORGANIZATION_DEFAULTS) = pl_max_questions free /\
    max_users (settings ORGANIZATION_DEFAULTS) = pl_max_users free /\
    analytics_enabled (settings ORGANIZATION_DEFAULTS) = pl_analytics_enabled free.
Proof.
  split; [reflexivity|]. eexists. split; [reflexivity|]. repeat split.
Qed.

(** ** Default-value tables and enumerations *)

(** C2: the default organization plan is [free], the default user role is
    [user] and status [active], the default question visibility is [draft]
    and the default tags are the empty list. *)
Theorem DEFAULTS_documented_literals :
  plan ORGANIZATION_DEFAULTS = "free" /\
  role USER_DEFAULTS = "user" /\
  status USER_DEFAULTS = "active" /\
  visibility QUESTION_DEFAULTS = "draft" /\
  tags QUESTION_DEFAULTS = [].
Proof. repeat split. Qed.

(** C3: each enumeration constant is its documented list of values, in
    order, and has no duplicate element. *)
Theorem enumerations_exact_and_duplicate_free :
  (ORGANIZATION_PLANS = ["free"; "pro"; "enterprise"] /\ NoDup ORGANIZATION_PLANS) /\
  (USER_ROLES = ["admin"; "user"] /\ NoDup USER_ROLES) /\
  (USER_STATUSES = ["active"; "suspended"; "pending"; "inactive"]
     /\ NoDup USER_STATUSES) /\
  (QUESTION_TYPES = ["multiple_choice"; "text"; "scale"] /\ NoDup QUESTION_TYPES) /\
  (QUESTION_VISIBILITY = ["live"; "draft"; "private"] /\ NoDup QUESTION_VISIBILITY) /\
  (RESPONSE_STATUSES = ["submitted"; "pending"; "invalid"] /\ NoDup RESPONSE_STATUSES).
Proof. repeat split; by_evaluation. Qed.

(** ** Pattern constants *)

(** C4: the slug pattern matches "acme-corp" and does not match
    "Acme Corp!"; the email pattern matches "a@b.co" and does not match
    "a@b". *)
Theorem pattern_constants_examples :
  RegExp_test (slug_pattern ORGANIZATION_VALIDATION) (code_units "acme-corp") = Some true /\
  RegExp_test (slug_pattern ORGANIZATION_VALIDATION) (code_units "Acme Corp!") = Some false /\
  RegExp_test (email_pattern USER_VALIDATION) (code_units "a@b.co") = Some true /\
  RegExp_test (email_pattern USER_VALIDATION) (code_units "a@b") = Some false.
Proof. repeat split; vm_compute; reflexivity. Qed.

(** ** The shape of a response *)

Lemma conforms_field (i : interface) (o : gmap string value) (f : field) :
  conforms i o = true -> f ∈ i -> field_ok o f = true.
Proof.
  unfold conforms. rewrite forallb_forall. intros Hall Hin.
  apply Hall. by apply list_elem_of_In.
Qed.

(** C5: the declared shape of [Response] has no field named [status] and
    no field of the type [ResponseStatus], and a value without a [status]
    property conforms to it; separately, [ResponseStatus] is the union of
    the literals 'submitted', 'pending' and 'invalid', the values of
    [RESPONSE_STATUSES]. *)
Theorem Response_shape_has_no_status :
("status" ∉ field_names Response) /\
  declared Response "status" = None /\
  Forall (fun f => type f <> ResponseStatus) Response /\
  (conforms Response anonymous_response = true /\
   anonymous_response !! "status" = None) /\
  RESPONSE_STATUSES = ["submitted"; "pending"; "invalid"] /\
  ResponseStatus = TUnion (TLiteral <$> RESPONSE_STATUSES).
Proof.
  split; [by_evaluation|]. split; [reflexivity|].
  split; [repeat constructor; cbn [type]; unfold ResponseStatus; congruence|].
  split; [split; vm_compute; reflexivity|].
  split; reflexivity.
Qed.

(** C6: in the declared shape of [Response] the field [user_id] is
    required and of type [string | null]; so every value conforming to the
    shape has a [user_id] property that is a string or [null], and a value
    without the property does not conform. *)
Theorem Response_user_id_required_nullable :
  declared Response "user_id"
    = Some {| name := "user_id"; optional := false;
              type := TUnion [TString; TNull] |} /\
  (forall o : gmap string value,
     conforms Response o = true ->
     o !! "user_id" = Some VNull \/ exists s, o !! "user_id" = Some (VStr s)) /\
  (forall o : gmap string value,
     o !! "user_id" = None -> conforms Response o = false).
Proof.
  assert (Hfield : forall o : gmap string value,
             conforms Response o = true ->
             o !! "user_id" = Some VNull \/ exists s, o !! "user_id" = Some (VStr s)).
  { intros o Hconf.
    assert (Hok : field_ok o {| name := "user_id"; optional := false;
                               type := TUnion [TString; TNull] |} = true).
    { apply (conforms_field Response); [exact Hconf|]. repeat constructor. }
    unfold field_ok in Hok. cbn [name optional type] in Hok.
    destruct (o !! "user_id") as [[]|];
      first [discriminate Hok | by left | right; by eexists]. }
  split; [reflexivity|]. split; [exact Hfield|].
  intros o Hnone. destruct (conforms Response o) eqn:Hconf; [|reflexivity].
  destruct (Hfield o Hconf) as [H|[s H]]; congruence.
Qed.

(** The anonymous sample conforms, and its [user_id] is [null]. *)
Lemma Response_user_id_required_nullable_witness :
  anonymous_response !! "user_id" = Some VNull
  \/ exists s, anonymous_response !! "user_id" = Some (VStr s).
Proof.
  apply (proj1 (proj2 Response_user_id_required_nullable) anonymous_response).
  vm_compute. reflexivity.
Defined.

(** Both alternatives occur, and leaving the property out is rejected. *)
Lemma Response_user_id_samples :
  conforms Response anonymous_response = true /\
  conforms Response attributed_response = true /\
  attributed_response !! "user_id" = Some (VStr "u-7") /\
  conforms Response response_without_user_id = false.
Proof. repeat split; vm_compute; reflexivity. Qed.

(** ** The matcher against the declarative reading of patterns *)

Section MatcherCorrect.

Variable Input : list N.

Lemma iterated_bounds (R : nat -> nat -> Prop) (x y : nat) :
  (forall a b, (a <= length Input)%nat -> R a b -> (a <= b <= length Input)%nat) ->
  (x <= length Input)%nat -> iterated R x y -> (x <= y <= length Input)%nat.
Proof.
  intros HR Hx Hit. induction Hit as [x|x y z Hxy Hne _ IH]; [lia|].
  specialize (HR x y Hx Hxy). lia.
Qed.

(** A match never moves backwards and never leaves the input. *)
Lemma matches_bounds (t : Term) (x y : nat) :
  (x <= length Input)%nat -> matches Input t x y -> (x <= y <= length Input)%nat.
Proof.
  revert x y.
  induction t as [| |ch|negated atoms|t IH|t IH|t1 IH1 t2 IH2];
    intros x y Hx; cbn [matches].
  - lia.
  - lia.
  - intros [Hch ->]. apply lookup_lt_Some in Hch. lia.
  - intros (ch & Hch & _ & ->). apply lookup_lt_Some in Hch. lia.
  - by apply iterated_bounds.
  - intros (z & Hxz & Hzy). pose proof (IH x z Hx Hxz) as Hb.
    assert (z <= y <= length Input)%nat
      by (apply (iterated_bounds _ z y IH); [lia | done]).
    lia.
  - intros (z & Hxz & Hzy). specialize (IH1 x z Hx Hxz).
    assert (z <= y <= length Input)%nat by (apply IH2; [lia | done]).
    lia.
Qed.

Lemma CharacterSetMatcher_sound (A : N -> bool) (invert : bool)
    (x : nat) (c : Continuation) (e : nat) :
  CharacterSetMatcher Input A invert x c = Match e ->
  exists ch, Input !! x = Some ch /\ A ch = negb invert /\ c (S x) = Match e.
Proof.
  unfold CharacterSetMatcher. destruct (Input !! x) as [ch|]; [|discriminate].
  destruct invert, (A ch) eqn:HA; cbn [eqb]; try discriminate;
    intros Hc; exists ch; by rewrite HA.
Qed.

Lemma CharacterSetMatcher_complete (A : N -> bool) (invert : bool)
    (x : nat) (c : Continuation) (ch : N) :
  CharacterSetMatcher Input A invert x c = Failure ->
  Input !! x = Some ch -> A ch = negb invert -> c (S x) = Failure.
Proof.
  unfold CharacterSetMatcher. intros Hfail Hch HA. rewrite Hch, HA in Hfail.
  by destruct invert.
Qed.

(** A repetition that succeeds went through iterations of [R]. *)
Lemma RepeatMatcher_sound (m : Matcher) (R : nat -> nat -> Prop) :
  (forall x c e, m x c = Match e -> exists y, R x y /\ c y = Match e) ->
  forall fuel x c e,
    RepeatMatcher m fuel x c = Match e ->
    exists y, iterated R x y /\ c y = Match e.
Proof.
  intros Hm fuel. induction fuel as [|fuel IH]; intros x c e; [discriminate|].
  cbn [RepeatMatcher]. destruct (m x _) as [|e'|] eqn:Hstep; [| |discriminate].
  - intros Hc. exists x. split; [constructor | exact Hc].
  - intros [= ->]. apply Hm in Hstep as (y & Hxy & Hd).
    destruct (Nat.eqb_spec y x) as [_|Hne]; [discriminate|].
    apply IH in Hd as (z & Hyz & Hz). exists z. split; [|exact Hz].
    by apply iterated_step with y.
Qed.

(** A repetition that fails has tried every sequence of iterations. *)
Lemma RepeatMatcher_complete (m : Matcher) (R : nat -> nat -> Prop) :
  (forall a b, (a <= length Input)%nat -> R a b -> (a <= b <= length Input)%nat) ->
  (forall x c, (x <= length Input)%nat -> m x c = Failure ->
               forall y, R x y -> c y = Failure) ->
  forall fuel x c,
    (x <= length Input)%nat -> (length Input - x < fuel)%nat ->
    RepeatMatcher m fuel x c = Failure ->
    forall y, iterated R x y -> c y = Failure.
Proof.
  intros HR Hm fuel. induction fuel as [|fuel IH]; intros x c Hx Hfuel; [lia|].
  cbn [RepeatMatcher]. destruct (m x _) eqn:Hstep; [|discriminate|discriminate].
  intros Hc y Hit. destruct Hit as [x|x y z Hxy Hne Hyz]; [exact Hc|].
  pose proof (HR x y Hx Hxy) as Hb.
  pose proof (Hm x _ Hx Hstep y Hxy) as Hd. cbn beta in Hd.
  destruct (Nat.eqb_spec y x) as [Heq|_]; [congruence|].
  apply (IH y c); [lia | lia | exact Hd | exact Hyz].
Qed.

Lemma compile_sound (t : Term) (x : nat) (c : Continuation) (e : nat) :
  compile Input t x c = Match e ->
  exists y, matches Input t x y /\ c y = Match e.
Proof.
  revert x c e.
  induction t as [| |ch|negated atoms|t IH|t IH|t1 IH1 t2 IH2];
    intros x c e; cbn [compile matches].
  - destruct (Nat.eqb_spec x 0); [eauto | discriminate].
  - destruct (Nat.eqb_spec x (length Input)); [eauto | discriminate].
  - intros (ch' & Hch & Heq & Hc)%CharacterSetMatcher_sound.
    apply N.eqb_eq in Heq as ->. eauto.
  - intros (ch & Hch & Hmem & Hc)%CharacterSetMatcher_sound. eauto 6.
  - by apply RepeatMatcher_sound.
  - intros (z & Hxz & Hrep)%IH.
    apply (RepeatMatcher_sound _ _ IH) in Hrep as (y & Hzy & Hc). eauto.
  - intros (z & Hxz & Hrest)%IH1. apply IH2 in Hrest as (y & Hzy & Hc). eauto.
Qed.

Lemma compile_complete (t : Term) (x : nat) (c : Continuation) :
  (x <= length Input)%nat -> compile Input t x c = Failure ->
  forall y, matches Input t x y -> c y = Failure.
Proof.
  revert x c.
  induction t as [| |ch|negated atoms|t IH|t IH|t1 IH1 t2 IH2];
    intros x c Hx; cbn [compile matches].
  - intros Hfail y [-> ->]. exact Hfail.
  - intros Hfail y [-> ->]. by rewrite Nat.eqb_refl in Hfail.
  - intros Hfail y [Hch ->].
    apply (CharacterSetMatcher_complete _ _ _ _ ch Hfail Hch), N.eqb_refl.
  - intros Hfail y (ch & Hch & Hmem & ->).
    by apply (CharacterSetMatcher_complete _ _ _ _ ch Hfail Hch).
  - apply RepeatMatcher_complete; [apply matches_bounds | exact IH | exact Hx |].
    unfold iterations. lia.
  - intros Hfail y (z & Hxz & Hzy).
    pose proof (matches_bounds t x z Hx Hxz) as Hb.
    pose proof (IH x _ Hx Hfail z Hxz) as Hrep. cbn beta in Hrep.
    revert Hrep y Hzy.
    apply RepeatMatcher_complete; [apply matches_bounds | exact IH | lia |].
    unfold iterations. lia.
  - intros Hfail y (z & Hxz & Hzy).
    pose proof (matches_bounds t1 x z Hx Hxz) as Hb.
    pose proof (IH1 x _ Hx Hfail z Hxz) as Hrest. cbn beta in Hrest.
    apply (IH2 z c); [lia | exact Hrest | exact Hzy].
Qed.

Lemma search_sound (t : Term) (n lastIndex e : nat) :
  (lastIndex + n <= S (length Input))%nat ->
  search Input t n lastIndex = Match e ->
  exists x y, (x <= length Input)%nat /\ matches Input t x y.
Proof.
  revert lastIndex. induction n as [|n IH]; intros lastIndex Hn; cbn [search];
    [discriminate|].
  destruct (compile Input t lastIndex Match) eqn:Hstep; [| |discriminate].
  - apply IH. lia.
  - intros _. apply compile_sound in Hstep as (y & Hy & _).
    exists lastIndex, y. split; [lia | exact Hy].
Qed.

Lemma search_complete (t : Term) (n lastIndex : nat) :
  (lastIndex + n <= S (length Input))%nat ->
  search Input t n lastIndex = Failure ->
  forall x y, (lastIndex <= x < lastIndex + n)%nat -> ~ matches Input t x y.
Proof.
  revert lastIndex. induction n as [|n IH]; intros lastIndex Hn; cbn [search];
    [intros; lia|].
  destruct (compile Input t lastIndex Match) eqn:Hstep; [|discriminate|discriminate].
  intros Hrest x y Hx Hm.
  destruct (decide (x = lastIndex)) as [->|Hne].
  - by pose proof (compile_complete t lastIndex Match ltac:(lia) Hstep y Hm).
  - apply (IH (S lastIndex) ltac:(lia) Hrest x y); [lia | exact Hm].
Qed.

End MatcherCorrect.

(** [test] answers [true] exactly when the pattern matches somewhere in
    the input, and [false] otherwise. *)
Lemma RegExp_test_true_iff (t : Term) (input : list N) :
  RegExp_test t input = Some true <->
  exists x y, (x <= length input)%nat /\ matches input t x y.
Proof.
  unfold RegExp_test, RegExpBuiltinExec.
  destruct (search input t (S (length input)) 0) as [|e|] eqn:Hs.
  - split; [discriminate|]. intros (x & y & Hx & Hm). exfalso.
    apply (search_complete input t (S (length input)) 0) with x y; [lia | done | lia | done].
  - split; [|done]. intros _.
    apply (search_sound input t (S (length input)) 0 e); [lia | done].
  - exfalso. revert Hs. apply search_total. lia.
Qed.

Lemma RegExp_test_false_iff (t : Term) (input : list N) :
  RegExp_test t input = Some false <->
  ~ exists x y, (x <= length input)%nat /\ matches input t x y.
Proof.
  rewrite <- RegExp_test_true_iff.
  destruct (RegExp_test_total t input) as [[] ->]; split; congruence.
Qed.

(** ** What the email pattern accepts *)

Lemma drop_cons_inv {A : Type} (l : list A) (x : nat) (a : A) (r : list A) :
  drop x l = a :: r -> l !! x = Some a /\ drop (S x) l = r.
Proof.
  intros Hd. split.
  - rewrite <- (Nat.add_0_r x), <- lookup_drop, Hd. reflexivity.
  - change (S x) with (1 + x)%nat. rewrite Nat.add_comm, <- drop_drop, Hd.
    reflexivity.
Qed.

Section ClassRuns.

Variable Input : list N.
Variable negated : bool.
Variable atoms : list ClassAtom.

(** Iterating a class from [x] to [y] reads a run of admitted code units. *)
Lemma iterated_class (x y : nat) :
  iterated (matches Input (CharClass negated atoms)) x y <->
  exists s, Forall (fun ch => class_mem atoms ch = negb negated) s /\
            drop x Input = (s ++ drop y Input)%list /\ y = (x + length s)%nat.
Proof.
  split.
  - intros Hit. induction Hit as [x|x y z Hxy _ _ IH].
    + exists []. cbn [length app]. split; [constructor|]. split; [done | lia].
    + destruct Hxy as (ch & Hch & Hmem & ->).
      destruct IH as (s & Hs & Hdrop & ->).
      exists (ch :: s). split; [by constructor|].
      rewrite (drop_S _ _ _ Hch), Hdrop. cbn [length app]. split; [done | lia].
  - intros (s & Hs & Hdrop & ->). revert x Hdrop.
    induction Hs as [|ch s Hch Hs IH]; intros x Hdrop.
    + rewrite Nat.add_0_r. constructor.
    + replace (x + length (ch :: s))%nat with (S x + length s)%nat in *
        by (cbn [length]; lia).
      apply drop_cons_inv in Hdrop as [Hlook Hrest].
      apply iterated_step with (S x); [by exists ch | lia | by apply IH].
Qed.

Lemma matches_plus_class (x y : nat) :
  matches Input (Plus (CharClass negated atoms)) x y <->
  exists s, s <> [] /\ Forall (fun ch => class_mem atoms ch = negb negated) s /\
            drop x Input = (s ++ drop y Input)%list /\ y = (x + length s)%nat.
Proof.
  change (matches Input (Plus (CharClass negated atoms)) x y)
    with (exists z, matches Input (CharClass negated atoms) x z /\
                    iterated (matches Input (CharClass negated atoms)) z y).
  split.
  - intros (z & (ch & Hch & Hmem & ->) & (s & Hs & Hdrop & ->)%iterated_class).
    exists (ch :: s). split; [done|]. split; [by constructor|].
    rewrite (drop_S _ _ _ Hch), Hdrop. cbn [length app]. split; [done | lia].
  - intros (s & Hne & Hs & Hdrop & ->).
    destruct s as [|ch s]; [done|]. apply Forall_cons in Hs as [Hch Hs].
    apply drop_cons_inv in Hdrop as [Hlook Hrest].
    exists (S x). split; [by exists ch|].
    apply iterated_class. exists s. split; [done|].
    split; [|cbn [length]; lia].
    replace (S x + length s)%nat with (x + length (ch :: s))%nat
      by (cbn [length]; lia).
    exact Hrest.
Qed.

End ClassRuns.

Lemma not_space_or_at_mem (ch : N) :
  class_mem [ClassSpace; ClassChar (cu "@")] ch = negb true <-> is_not_space_or_at ch.
Proof.
  unfold class_mem, existsb, atom_mem, is_not_space_or_at. cbn [negb].
  rewrite !orb_false_iff, N.eqb_neq. tauto.
Qed.

Lemma Forall_not_space_or_at (s : list N) :
  Forall (fun ch => class_mem [ClassSpace; ClassChar (cu "@")] ch = negb true) s
  <-> Forall is_not_space_or_at s.
Proof. apply Forall_proper; [|done]. intros ch. apply not_space_or_at_mem. Qed.

(** The strings [USER_VALIDATION.email_pattern] accepts, as a relation
    between the input and its three parts. *)
Lemma email_pattern_matches (input : list N) (x y : nat) :
  matches input (email_pattern USER_VALIDATION) x y <->
  x = 0%nat /\ y = length input /\ email_form input.
Proof.
  cbn [email_pattern USER_VALIDATION]. unfold not_space_or_at, email_form. split.
  - intros (z0 & [-> ->] & z1 & Hu & z2 & [Hat ->] & z3 & Hd & z4 & [Hdot ->]
            & z5 & Ht & [-> ->]).
    apply matches_plus_class in Hu as (u & Hune & Hu & Hudrop & ->).
    apply matches_plus_class in Hd as (d & Hdne & Hd & Hddrop & ->).
    apply matches_plus_class in Ht as (t & Htne & Ht & Htdrop & Hlen).
    split; [done|]. split; [done|]. exists u, d, t.
    rewrite Forall_not_space_or_at in Hu, Hd, Ht.
    split; [|done].
    rewrite drop_0 in Hudrop. rewrite Hudrop at 1.
    rewrite (drop_S _ _ _ Hat), Hddrop, (drop_S _ _ _ Hdot), Htdrop.
    by rewrite drop_all, app_nil_r.
  - intros (-> & -> & u & d & t & Hin & Hune & Hdne & Htne & Hu & Hd & Ht).
    rewrite <- Forall_not_space_or_at in Hu, Hd, Ht.
    assert (Hd1 : drop (length u) input = (cu "@" :: d ++ cu "." :: t)%list).
    { rewrite Hin at 1. by rewrite drop_app_length. }
    destruct (drop_cons_inv _ _ _ _ Hd1) as [Hat Hd2].
    assert (Hd3 : drop (S (length u) + length d) input = cu "." :: t).
    { rewrite <- drop_drop, Hd2. by rewrite drop_app_length. }
    destruct (drop_cons_inv _ _ _ _ Hd3) as [Hdot Hd4].
    assert (Hlen : length input = (S (S (length u) + length d) + length t)%nat).
    { rewrite Hin at 1. rewrite !length_app. cbn [length]. rewrite length_app.
      cbn [length]. lia. }
    exists 0%nat. split; [done|].
    exists (length u). split.
    { apply matches_plus_class. exists u. rewrite drop_0, Hd1.
      split; [done|]. split; [done|]. split; [exact Hin | done]. }
    exists (S (length u)). split; [done|].
    exists (S (length u) + length d)%nat. split.
    { apply matches_plus_class. exists d. rewrite Hd2, Hd3. done. }
    exists (S (S (length u) + length d)). split; [done|].
    exists (S (S (length u) + length d) + length t)%nat. split.
    { apply matches_plus_class. exists t. rewrite Hd4, <- Hlen, drop_all, app_nil_r.
      done. }
    done.
Qed.

(** [test] on the email pattern answers [true] exactly on the inputs of
    the form [u@d.t]. *)
Lemma email_pattern_test_iff (input : list N) :
  RegExp_test (email_pattern USER_VALIDATION) input = Some true <-> email_form input.
Proof.
  rewrite RegExp_test_true_iff. split.
  - intros (x & y & _ & Hm). by apply email_pattern_matches in Hm as (_ & _ & Hform).
  - intros Hform. exists 0%nat, (length input). split; [lia|].
    by apply email_pattern_matches.
Qed.

(** X2: [USER_VALIDATION.email_pattern] accepts exactly the inputs of the
    form [u@d.t] with [u], [d] and [t] non-empty and free of white space
    and of [@]; it rejects every other input. *)
Theorem email_pattern_accepts_exactly (input : list N) :
  (RegExp_test (email_pattern USER_VALIDATION) input = Some true <-> email_form input) /\
  (RegExp_test (email_pattern USER_VALIDATION) input = Some false <-> ~ email_form input).
Proof.
  split; [apply email_pattern_test_iff|].
  rewrite <- email_pattern_test_iff.
  destruct (RegExp_test_total (email_pattern USER_VALIDATION) input) as [[] ->];
    split; congruence.
Qed.

Lemma filter_eq_nil_Forall (a : N) (s : list N) :
  Forall (fun ch => ch <> a) s -> filter (fun ch => ch = a) s = [].
Proof.
  induction 1 as [|ch s Hch _ IH]; [reflexivity|].
  by rewrite filter_cons_False, IH.
Qed.

(** X3: an email address the pattern accepts has at least five code
    units, no white space, and exactly one [@]. *)
Theorem email_pattern_accepts_only (input : list N) :
  RegExp_test (email_pattern USER_VALIDATION) input = Some true ->
  (5 <= length input)%nat /\
  Forall (fun ch => is_space ch = false) input /\
  length (filter (fun ch => ch = cu "@") input) = 1%nat.
Proof.
  intros (u & d & t & -> & Hu & Hd & Ht & HFu & HFd & HFt)%email_pattern_test_iff.
  assert (Hat : forall s, Forall is_not_space_or_at s ->
                  filter (fun ch => ch = cu "@") s = []).
  { intros s Hs. apply filter_eq_nil_Forall.
    eapply Forall_impl; [exact Hs|]. by intros ch [_ Hne]. }
  assert (Hsp : forall s, Forall is_not_space_or_at s ->
                  Forall (fun ch => is_space ch = false) s).
  { intros s Hs. eapply Forall_impl; [exact Hs|]. by intros ch [Hsp _]. }
  split; [|split].
  - rewrite length_app. cbn [length]. rewrite length_app. cbn [length].
    destruct u, d, t; cbn [length]; try done. lia.
  - apply Forall_app. split; [by apply Hsp|]. constructor; [by vm_compute|].
    apply Forall_app. split; [by apply Hsp|]. constructor; [by vm_compute|].
    by apply Hsp.
  - rewrite filter_app, filter_cons_True by done.
    rewrite filter_app, filter_cons_False by done.
    rewrite !Hat by done. reflexivity.
Qed.

Lemma email_pattern_accepts_only_witness :
  (5 <= length (code_units "a@b.co"))%nat /\
  Forall (fun ch => is_space ch = false) (code_units "a@b.co") /\
  length (filter (fun ch => ch = cu "@") (code_units "a@b.co")) = 1%nat.
Proof.
  apply (email_pattern_accepts_only (code_units "a@b.co")).
  vm_compute. reflexivity.
Defined.

(** X4: neither pattern bounds the length of what it accepts: there is
    an accepted slug of every length from 1 on, and an accepted email
    address of every length from 5 on; so the length limits of the
    validation tables ([min_slug_length], [max_slug_length],
    [max_email_length]) are rules of their own. *)
Theorem patterns_accept_every_length (n : nat) :
  (exists input, length input = S n /\
     RegExp_test (slug_pattern ORGANIZATION_VALIDATION) input = Some true) /\
  (exists input, length input = (5 + n)%nat /\
     RegExp_test (email_pattern USER_VALIDATION) input = Some true).
Proof.
  split.
  - exists (replicate (S n) (cu "a")). split; [apply length_replicate|].
    rewrite slug_pattern_test. f_equal. cbn [replicate forallb].
    change (negb (bool_decide _)) with true. cbn [andb].
    change (bool_decide _) with true at 1. cbn [andb].
    induction n as [|n IH]; [reflexivity|]. cbn [replicate forallb].
    by rewrite IH.
  - exists (replicate (S n) (cu "a") ++ code_units "@b.c")%list. split.
    + rewrite length_app, length_replicate. cbn. lia.
    + apply email_pattern_test_iff.
      exists (replicate (S n) (cu "a")), [cu "b"], [cu "c"].
      split; [reflexivity|]. split; [done|]. split; [done|]. split; [done|].
      split; [|split]; [|by repeat constructor; vm_compute..].
      apply Forall_replicate. by vm_compute.
Qed.

(** ** Enumerations and the types they stand for *)

Lemma has_type_literal (s : string) (v : value) :
  has_type (TLiteral s) v = true <-> v = VStr s.
Proof.
  destruct v; cbn [has_type]; try (split; [discriminate | congruence]).
  rewrite bool_decide_eq_true. split; congruence.
Qed.

Lemma has_type_union (ts : list ts_type) (v : value) :
  has_type (TUnion ts) v = true <-> exists t, t ∈ ts /\ has_type t v = true.
Proof.
  cbn [has_type]. rewrite existsb_exists.
  split; intros (t & Hin & Ht); exists t; by rewrite ?list_elem_of_In in *.
Qed.

(** A union of string literals admits exactly the listed strings. *)
Lemma has_type_literal_union (l : list string) (v : value) :
  has_type (TUnion (TLiteral <$> l)) v = true <-> exists s, v = VStr s /\ s ∈ l.
Proof.
  rewrite has_type_union. split.
  - intros (t & (s & -> & Hs)%list_elem_of_fmap & ->%has_type_literal). eauto.
  - intros (s & -> & Hs). exists (TLiteral s).
    split; [by apply list_elem_of_fmap_2 | by apply has_type_literal].
Qed.


(** Splits a conjunction into its conjuncts, leaving equivalences whole. *)
Ltac split_conjuncts := repeat match goal with |- _ /\ _ => split end.

(** X5: the type aliases [OrganizationPlan], [UserRole], [UserStatus],
    [QuestionType], [QuestionVisibility] and [ResponseStatus] admit exactly
    the strings of the enumeration constants [ORGANIZATION_PLANS],
    [USER_ROLES], [USER_STATUSES], [QUESTION_TYPES], [QUESTION_VISIBILITY]
    and [RESPONSE_STATUSES]: a value has the type if and only if it is a
    string listed in the constant. *)
Theorem enumerations_agree_with_types (v : value) :
  (has_type OrganizationPlan v = true <-> exists s, v = VStr s /\ s ∈ ORGANIZATION_PLANS) /\
  (has_type UserRole v = true <-> exists s, v = VStr s /\ s ∈ USER_ROLES) /\
  (has_type UserStatus v = true <-> exists s, v = VStr s /\ s ∈ USER_STATUSES) /\
  (has_type QuestionType v = true <-> exists s, v = VStr s /\ s ∈ QUESTION_TYPES) /\
  (has_type QuestionVisibility v = true <->
     exists s, v = VStr s /\ s ∈ QUESTION_VISIBILITY) /\
  (has_type ResponseStatus v = true <-> exists s, v = VStr s /\ s ∈ RESPONSE_STATUSES).
Proof.
  split_conjuncts.
  - exact (has_type_literal_union ORGANIZATION_PLANS v).
  - exact (has_type_literal_union USER_ROLES v).
  - exact (has_type_literal_union USER_STATUSES v).
  - exact (has_type_literal_union QUESTION_TYPES v).
  - exact (has_type_literal_union QUESTION_VISIBILITY v).
  - exact (has_type_literal_union RESPONSE_STATUSES v).
Qed.


(** ** Defaults and limits across tables *)

(** X7: every default that names a value of an enumeration names one the
    enumeration lists (plan, role, status, visibility), and the default
    preferences are a complete [UserPreferences] value, its theme being
    one of the three the type admits. *)
Theorem defaults_are_admissible :
  plan ORGANIZATION_DEFAULTS ∈ ORGANIZATION_PLANS /\
  role USER_DEFAULTS ∈ USER_ROLES /\
  status USER_DEFAULTS ∈ USER_STATUSES /\
  visibility QUESTION_DEFAULTS ∈ QUESTION_VISIBILITY /\
  conforms UserPreferences_interface
    (UserPreferences_object (preferences USER_DEFAULTS)) = true.
Proof. split_conjuncts; by_evaluation. Qed.

(** X8: quotas and features never shrink along the order of
    [ORGANIZATION_PLANS]: a later tier allows at least as many questions
    and users as an earlier one ([-1] being unlimited) and keeps every
    feature the earlier one has. *)
Theorem PLAN_LIMITS_grow_with_tier (i j : nat) (p q : string) :
  (i <= j)%nat ->
  ORGANIZATION_PLANS !! i = Some p ->
  ORGANIZATION_PLANS !! j = Some q ->
  exists lp lq,
    PLAN_LIMITS !! p = Some lp /\ PLAN_LIMITS !! q = Some lq /\
    quota_le (pl_max_questions lp) (pl_max_questions lq) /\
    quota_le (pl_max_users lp) (pl_max_users lq) /\
    (pl_analytics_enabled lp = true -> pl_analytics_enabled lq = true) /\
    (pl_custom_branding lp = true -> pl_custom_branding lq = true).
Proof.
  intros Hij Hp Hq.
  destruct i as [|[|[|i]]]; cbn in Hp; try discriminate Hp;
    destruct j as [|[|[|j]]]; cbn in Hq; try discriminate Hq; try lia;
    injection Hp as <-; injection Hq as <-;
    (do 2 eexists; split; [vm_compute; reflexivity|];
     split; [vm_compute; reflexivity|]);
    cbn [pl_max_questions pl_max_users pl_analytics_enabled pl_custom_branding];
    unfold quota_le; split_conjuncts; first [done | lia].
Qed.

Lemma PLAN_LIMITS_grow_with_tier_witness :
  exists lp lq,
    PLAN_LIMITS !! "free" = Some lp /\ PLAN_LIMITS !! "enterprise" = Some lq /\
    quota_le (pl_max_questions lp) (pl_max_questions lq) /\
    quota_le (pl_max_users lp) (pl_max_users lq) /\
    (pl_analytics_enabled lp = true -> pl_analytics_enabled lq = true) /\
    (pl_custom_branding lp = true -> pl_custom_branding lq = true).
Proof.
  apply (PLAN_LIMITS_grow_with_tier 0 2 "free" "enterprise");
    [lia | reflexivity | reflexivity].
Defined.

(** ** Shapes of questions *)


Lemma object_literal_lookup_elem {A : Type} (props : list (string * A))
    (k : string) (v : A) :
  object_literal props !! k = Some v -> (k, v) ∈ props.
Proof. apply elem_of_list_to_map_2. Qed.



(** X10: [QUESTION_DEFAULTS] has a default for exactly the optional fields of
    [CreateQuestionRequest]; every default has the type [Question]
    declares for the field; and every default except that of [asset_url]
    (which is [null], while the request declares a string) has the type
    the request declares. *)
Theorem QUESTION_DEFAULTS_cover_optional_request_fields :
  let defaults := QuestionDefaults_object QUESTION_DEFAULTS in
  dom defaults = list_to_set (field_names (List.filter optional CreateQuestionRequest)) /\
  map_Forall (fun k v => exists f, declared Question k = Some f /\
                                   has_type (type f) v = true) defaults /\
  map_Forall (fun k v => exists f, declared CreateQuestionRequest k = Some f /\
                                   (has_type (type f) v = true <-> k <> "asset_url"))
             defaults.
Proof.
  intros defaults. split; [by vm_compute|].
  split; intros k v Hkv%object_literal_lookup_elem;
    repeat (apply elem_of_cons in Hkv as [[= -> ->]|Hkv]);
    try (by apply elem_of_nil in Hkv);
    (eexists; split; [reflexivity|]); by_evaluation.
Qed.

(** A field read from a request laid over a table of defaults: the
    request's property is used when it has one, the default otherwise. *)
Lemma field_ok_union (r d : gmap string value) (freq fent : field) :
  name freq = name fent ->
  field_ok r freq = true ->
  r !! name fent <> Some VUndefined ->
  (forall v, has_type (type freq) v = true -> has_type (type fent) v = true) ->
  (optional freq = true -> field_ok d fent = true) ->
  field_ok (r ∪ d) fent = true.
Proof.
  unfold field_ok. intros -> Hreq Hdef Hsub Hd.
  destruct (r !! name fent) as [v|] eqn:Hr.
  - rewrite (lookup_union_Some_l _ _ _ _ Hr).
    destruct v; first [congruence | by apply Hsub].
  - rewrite (lookup_union_r _ _ _ Hr). by apply Hd.
Qed.

(** X11: a creation request laid over [QUESTION_DEFAULTS] (the request's
    own properties first, the defaults for the properties it lacks, as
    [r ∪ defaults] reads) supplies every field of [Question] apart from
    the five the request has no field for ([id], [organization_id],
    [scheduled_for], [created_by], [created_at]), each with the type
    [Question] declares, provided the request sets no property to
    [undefined]. *)
Theorem question_request_over_defaults (r : gmap string value) :
  conforms CreateQuestionRequest r = true ->
  (forall k, r !! k <> Some VUndefined) ->
  Forall (fun f =>
            name f ∈ ["id"; "organization_id"; "scheduled_for"; "created_by";
                      "created_at"]
            \/ field_ok (r ∪ QuestionDefaults_object QUESTION_DEFAULTS) f = true)
         Question.
Proof.
  intros Hconf Hdef.
  assert (Hreq : forall f, f ∈ CreateQuestionRequest -> field_ok r f = true)
    by (intros f; by apply conforms_field).
  assert (Hvia : forall freq fent,
            freq ∈ CreateQuestionRequest ->
            name freq = name fent ->
            (forall v, has_type (type freq) v = true -> has_type (type fent) v = true) ->
            (optional freq = true ->
             field_ok (QuestionDefaults_object QUESTION_DEFAULTS) fent = true) ->
            field_ok (r ∪ QuestionDefaults_object QUESTION_DEFAULTS) fent = true)
    by (intros freq fent Hin Hname Hsub Hd;
        apply (field_ok_union r _ freq fent); auto).
  unfold Question. repeat apply Forall_cons_2; try apply Forall_nil_2;
    first [ left; by_evaluation | right ].
  - apply (Hvia {| name := "text"; optional := false; type := TString |});
      [repeat constructor | done | done | done].
  - apply (Hvia {| name := "options"; optional := false; type := TArray TString |});
      [repeat constructor | done | done | done].
  - apply (Hvia {| name := "type"; optional := false; type := QuestionType |});
      [repeat constructor | done | done | done].
  - apply (Hvia {| name := "allow_multiple"; optional := true; type := TBoolean |});
      [repeat constructor | done | done | done].
  - apply (Hvia {| name := "is_active"; optional := true; type := TBoolean |});
      [repeat constructor | done | done | done].
  - apply (Hvia {| name := "is_anonymous"; optional := true; type := TBoolean |});
      [repeat constructor | done | done | done].
  - apply (Hvia {| name := "asset_url"; optional := true; type := TString |});
      [repeat constructor | done | by intros [] | done].
  - apply (Hvia {| name := "visibility"; optional := true; type := QuestionVisibility |});
      [repeat constructor | done | done | done].
  - apply (Hvia {| name := "tags"; optional := true; type := TArray TString |});
      [repeat constructor | done | done | done].
Qed.

Lemma question_request_over_defaults_witness :
  Forall (fun f =>
            name f ∈ ["id"; "organization_id"; "scheduled_for"; "created_by";
                      "created_at"]
            \/ field_ok (minimal_question_request
                         ∪ QuestionDefaults_object QUESTION_DEFAULTS) f = true)
         Question.
Proof.
  apply (question_request_over_defaults minimal_question_request).
  - vm_compute. reflexivity.
  - intros k Hk%object_literal_lookup_elem.
    repeat (apply elem_of_cons in Hk as [[= _ ?]|Hk]); try discriminate.
    by apply elem_of_nil in Hk.
Defined.

(** The provision is needed: a request may set the optional [tags] to
    [undefined], and laid over the defaults it then has no list of tags. *)
Lemma undefined_tags_mask_the_default :
  conforms CreateQuestionRequest question_request_with_undefined_tags = true /\
  field_ok (question_request_with_undefined_tags
            ∪ QuestionDefaults_object QUESTION_DEFAULTS)
           {| name := "tags"; optional := false; type := TArray TString |} = false.
Proof. split; vm_compute; reflexivity. Qed.

(** ** Shapes of responses *)



(** X13: [RESPONSE_DEFAULTS] has a default for exactly the optional fields of
    [SubmitResponseRequest], which are also the optional fields of
    [Response]; each default is admissible for its field: [metadata] is an
    object, and [text_answer] is [undefined], as an optional field may be. *)
Theorem RESPONSE_DEFAULTS_cover_optional_fields :
  let defaults := ResponseDefaults_object RESPONSE_DEFAULTS in
  dom defaults = list_to_set (field_names (List.filter optional SubmitResponseRequest)) /\
  List.filter optional SubmitResponseRequest = List.filter optional Response /\
  Forall (fun f => field_ok defaults f = true) (List.filter optional Response) /\
  defaults !! "text_answer" = Some VUndefined.
Proof. intros defaults. split_conjuncts; first [by vm_compute | by_evaluation]. Qed.

(** ** Shapes of organizations and users *)










